(** * Outage tracker: a shallow embedding of [src/server.js]

    The Express handlers of the outage-reporting backend are embedded as
    pure functions over an explicit store.  Conventions:

    - the Mongo collection is a [list Outage] in natural (insertion) order;
      [findOne]/[findById] return the first matching document and [save]
      rewrites the document carrying the same [_id];
    - a [Date] is its time value, an integer number of milliseconds ([Z]);
    - a JS [Number] holding a counter is a [Z]; a JS [Number] holding minutes
      is an exact rational ([Q]), so [/] below is exact division and the
      binary64 rounding of the engine is abstracted away;
    - a field of the request that is [undefined] or [null] is [None];
    - a JS object used as a dictionary is a [gmap]; [Object.keys] of an
      object whose keys are array indices enumerates them in ascending
      numeric order;
    - what the server cannot decide by itself (the clock, the fresh
      [ObjectId], [Date] parsing, [ObjectId.isValid], the local time zone, the
      environment variable [ADMIN_PASSWORD]) is an explicit argument. *)

From stdpp Require Import gmap strings list fin_maps sorting.
From Stdlib Require Import QArith Qminmax Ascii Lqa.

Local Open Scope Z_scope.
Local Open Scope string_scope.
Local Open Scope list_scope.

(** ** Schema ([outageSchema], lines 24-42) *)

Inductive Status := ongoing | resolved.
Inductive Confidence := unverified | likely | confirmed.

#[global] Instance Status_eq_dec : EqDecision Status.
Proof. solve_decision. Defined.
#[global] Instance Confidence_eq_dec : EqDecision Confidence.
Proof. solve_decision. Defined.

Record Outage := mkOutage {
  _id : string;
  service : string;
  area : string;
  downTime : Z;
  upTime : option Z;
  durationMinutes : option Q;
  status : Status;
  confirmCount : Z;
  confidenceLevel : Confidence;
  createdAt : Z
}.

Definition Store := list Outage.

(** [enum: ["Electricity", "Water", "Internet", "Transport"]] *)
Definition service_enum : list string :=
  ["Electricity"; "Water"; "Internet"; "Transport"].

(** ** HTTP responses *)

Record Stats := mkStats {
  totalDowntimeMinutes : Q;
  averageDowntimeMinutes : Q;
  serviceWiseDowntime : gmap string Q;
  reliabilityScores : gmap string Q
}.

(** The two keys are property names of [hourMap] and [dayMap]: the decimal
    spellings of these numbers. *)
Record Insights := mkInsights {
  peakOutageHour : N;
  worstDayOfWeek : N;
  recurringAreas : gmap string Z
}.

Inductive Body :=
| Message (message : string)
| Confirmation (message : string) (outage : Outage)
| OutageDoc (outage : Outage)
| EmptyObject
| StatsDoc (s : Stats)
| InsightsDoc (i : Insights).

Record Response := mkResponse { code : Z; body : Body }.

(** [res.json(x)] answers with status 200; [res.status(c).json(x)] with [c]. *)
Definition json (b : Body) : Response := mkResponse 200 b.
Definition status_json (c : Z) (b : Body) : Response := mkResponse c b.

(** The central error handler (lines 245-248), reached through [next(err)]. *)
Definition server_error : Response := status_json 500 (Message "Server error").

(** ** Helper functions (lines 47-53) *)

Definition getConfidenceLevel (count : Z) : Confidence :=
  if bool_decide (count >= 3) then confirmed
  else if bool_decide (count = 2) then likely
  else unverified.

(** JS truthiness of a request field that is a string when present. *)
Definition truthy (v : option string) : bool :=
  match v with
  | Some s => bool_decide (s ≠ "")
  | None => false
  end.

(** ** The collection *)

Definition Outage_findOne (sv ar : string) (st : Store) : option Outage :=
  List.find
    (λ o, bool_decide (service o = sv ∧ area o = ar ∧ status o = ongoing)) st.

Definition Outage_findById (id : string) (st : Store) : option Outage :=
  List.find (λ o, bool_decide (_id o = id)) st.

(** [Outage.find({ status })]. *)
Definition Outage_find_status (s : Status) (st : Store) : list Outage :=
  List.filter (λ o, bool_decide (status o = s)) st.

(** [doc.save()]: the stored document with the id of [doc] becomes [doc]. *)
Fixpoint Outage_save (doc : Outage) (st : Store) : Store :=
  match st with
  | [] => []
  | o :: rest =>
      if bool_decide (_id o = _id doc) then doc :: rest
      else o :: Outage_save doc rest
  end.

Fixpoint Outage_findByIdAndDelete (id : string) (st : Store) : Store :=
  match st with
  | [] => []
  | o :: rest =>
      if bool_decide (_id o = id) then rest
      else o :: Outage_findByIdAndDelete id rest
  end.

(** [Outage.create(fields)]: schema validation, then defaults, then insert.
    [None] stands for the rejected promise (a validation error): [service]
    must be in the enum, [area] is required (a non-empty string) and
    [downTime] must cast to a valid date. *)
Definition Outage_create (newId : string) (now : Z)
    (sv ar : string) (down : option Z) (st : Store) : option (Outage * Store) :=
  match down with
  | Some t =>
      if bool_decide (sv ∈ service_enum) && bool_decide (ar ≠ "") then
        let doc := {| _id := newId; service := sv; area := ar; downTime := t;
                      upTime := None; durationMinutes := None;
                      status := ongoing; confirmCount := 1;
                      confidenceLevel := unverified; createdAt := now |} in
        Some (doc, st ++ [doc])
      else None
  | None => None
  end.

(** Field assignments on a loaded document. *)
Definition set_confirmation (count : Z) (level : Confidence) (o : Outage)
    : Outage :=
  {| _id := _id o; service := service o; area := area o;
     downTime := downTime o; upTime := upTime o;
     durationMinutes := durationMinutes o; status := status o;
     confirmCount := count; confidenceLevel := level;
     createdAt := createdAt o |}.

Definition set_restoration (up : Z) (minutes : Q) (o : Outage) : Outage :=
  {| _id := _id o; service := service o; area := area o;
     downTime := downTime o; upTime := Some up;
     durationMinutes := Some minutes; status := resolved;
     confirmCount := confirmCount o; confidenceLevel := confidenceLevel o;
     createdAt := createdAt o |}.

(** ** JS operators on the values the handlers meet *)

(** [ToNumber]: [null] counts as 0 in an addition. *)
Definition to_number (v : option Q) : Q := default 0%Q v.

(** [v || 0] on a number or [undefined]. *)
Definition or_zero (v : option Q) : Q :=
  match v with
  | Some q => if Qeq_bool q 0 then 0%Q else q
  | None => 0%Q
  end.

Definition or_zeroZ (v : option Z) : Z :=
  match v with
  | Some c => if bool_decide (c = 0) then 0 else c
  | None => 0
  end.

(** [x > y] on counters read from an object: a comparison with [undefined]
    is false. *)
Definition js_gt (x y : option Z) : bool :=
  match x, y with
  | Some u, Some v => bool_decide (u > v)
  | _, _ => false
  end.

(** [Object.keys] of an object whose property names are array indices:
    ascending numeric order, whatever the insertion order. *)
Definition Object_keys {V} (obj : gmap N V) : list N :=
  merge_sort N.le (map fst (map_to_list obj)).

(** [Object.keys(obj).reduce((a, b) => obj[a] > obj[b] ? a : b)]; [reduce]
    without initial value throws on an empty array ([None]). *)
Definition maxKey (obj : gmap N Z) : option N :=
  match Object_keys obj with
  | [] => None
  | k :: ks =>
      Some (fold_left (λ a b, if js_gt (obj !! a) (obj !! b) then a else b) ks k)
  end.

(** ** Routes *)

Record ReportBody := mkReportBody {
  req_service : option string;
  req_area : option string;
  req_downTime : option string
}.

Section Routes.

(** [new Date(s)] as a time value, [None] for an invalid date. *)
Variable Date_parse : string → option Z.
(** [mongoose.Types.ObjectId.isValid]. *)
Variable ObjectId_isValid : string → bool.
(** Offset of local time from UTC, in milliseconds, at an instant. *)
Variable tzOffset : Z → Z.

Definition isValidObjectId (id : string) : bool := ObjectId_isValid id.

(** 1. Report service downtime (lines 58-94).  A field that is missing is
    falsy; one that is present is falsy when it is the empty string. *)
Definition post_outages (req : ReportBody) (newId : string) (now : Z)
    (st : Store) : Store * Response :=
  match req_service req, req_area req, req_downTime req with
  | Some sv, Some ar, Some dt =>
      if negb (truthy (Some sv)) || negb (truthy (Some ar))
         || negb (truthy (Some dt))
      then (st, status_json 400 (Message "Missing required fields"))
      else
        match Outage_findOne sv ar st with
        | Some existing =>
            let count := confirmCount existing + 1 in
            let existing' :=
              set_confirmation count (getConfidenceLevel count) existing in
            (Outage_save existing' st,
             status_json 200 (Confirmation "Confirmation added" existing'))
        | None =>
            match Outage_create newId now sv ar (Date_parse dt) st with
            | Some (outage, st') => (st', status_json 201 (OutageDoc outage))
            | None => (st, server_error)
            end
        end
  | _, _, _ => (st, status_json 400 (Message "Missing required fields"))
  end.

(** 3. Restore service (lines 107-128). *)
Definition put_restore (id : string) (now : Z) (st : Store)
    : Store * Response :=
  if negb (isValidObjectId id)
  then (st, status_json 400 (Message "Invalid ID"))
  else
    match Outage_findById id st with
    | None => (st, status_json 404 (Message "Not found"))
    | Some outage =>
        if bool_decide (status outage = resolved)
        then (st, status_json 400 (Message "Already resolved"))
        else
          let up := now in
          let minutes := (inject_Z (up - downTime outage) / 60000)%Q in
          let outage' := set_restoration up minutes outage in
          (Outage_save outage' st, json (OutageDoc outage'))
    end.

(** 4. Downtime analytics (lines 131-162). *)
Definition stats_step (acc : Q * gmap string Q) (o : Outage)
    : Q * gmap string Q :=
  let '(totalMinutes, serviceTotals) := acc in
  ((totalMinutes + to_number (durationMinutes o))%Q,
   <[service o :=
       (or_zero (serviceTotals !! service o)
        + to_number (durationMinutes o))%Q]> serviceTotals).

Definition get_stats (st : Store) : Response :=
  let outages := Outage_find_status resolved st in
  if bool_decide (length outages = 0%nat) then json EmptyObject
  else
    let '(totalMinutes, serviceTotals) :=
      fold_left stats_step outages (0%Q, ∅) in
    let avg := (totalMinutes / inject_Z (Z.of_nat (length outages)))%Q in
    let reliability :=
      (λ total, let hours := (total / 60)%Q in
                Qmax 0 (100 - hours * 2)%Q) <$> serviceTotals in
    json (StatsDoc {| totalDowntimeMinutes := totalMinutes;
                      averageDowntimeMinutes := avg;
                      serviceWiseDowntime := serviceTotals;
                      reliabilityScores := reliability |}).

(** 5. Time-based intelligence (lines 165-193). *)
Definition getHours (d : Z) : N :=
  Z.to_N (((d + tzOffset d) `div` 3600000) `mod` 24).

Definition getDay (d : Z) : N :=
  Z.to_N ((((d + tzOffset d) `div` 86400000) + 4) `mod` 7).

Definition count_up {K} `{Countable K} (k : K) (m : gmap K Z) : gmap K Z :=
  <[k := or_zeroZ (m !! k) + 1]> m.

Definition insights_step (acc : gmap N Z * gmap N Z * gmap string Z)
    (o : Outage) : gmap N Z * gmap N Z * gmap string Z :=
  let '(hourMap, dayMap, areaMap) := acc in
  let hour := getHours (downTime o) in
  let day := getDay (downTime o) in
  (count_up hour hourMap, count_up day dayMap, count_up (area o) areaMap).

Definition get_insights (st : Store) : Response :=
  let outages := st (* Outage.find() *) in
  if bool_decide (length outages = 0%nat) then json EmptyObject
  else
    let '(hourMap, dayMap, areaMap) :=
      fold_left insights_step outages (∅, ∅, ∅) in
    match maxKey hourMap, maxKey dayMap with
    | Some h, Some d =>
        json (InsightsDoc {| peakOutageHour := h; worstDayOfWeek := d;
                             recurringAreas := areaMap |})
    | _, _ => server_error
    end.

(** Admin delete (lines 227-242).  [x_admin_password] is the request
    header, [ADMIN_PASSWORD] the environment variable; both are
    [undefined] ([None]) when absent. *)
Definition delete_outage (x_admin_password ADMIN_PASSWORD : option string)
    (id : string) (st : Store) : Store * Response :=
  if bool_decide (x_admin_password ≠ ADMIN_PASSWORD)
  then (st, status_json 403 (Message "Forbidden"))
  else if negb (isValidObjectId id)
  then (st, status_json 400 (Message "Invalid ID"))
  else (Outage_findByIdAndDelete id st, json (Message "Deleted")).

End Routes.

(** ** Reference notions used to state the properties *)

(** The documents a report for [(sv, ar)] can be merged into. *)
Definition matches_ongoing (sv ar : string) (o : Outage) : Prop :=
  service o = sv ∧ area o = ar ∧ status o = ongoing.

(** A report whose three fields are present (truthy). *)
Definition present_report (req : ReportBody) (sv ar dt : string) : Prop :=
  req_service req = Some sv ∧ req_area req = Some ar ∧
  req_downTime req = Some dt ∧ sv ≠ "" ∧ ar ≠ "" ∧ dt ≠ "".




(** How many records of [l] fall under the key [k]. *)
Definition tally {K} `{EqDecision K} (key : Outage → K) (k : K)
    (l : list Outage) : Z :=
  Z.of_nat (length (filter (λ o, key o = k) l)).

(** The counter read from an object, 0 when the property is missing. *)
Definition counter (obj : gmap N Z) (k : N) : Z := default 0 (obj !! k).

(** The tie-break rule as the spec words it: a scan of the keys in iteration
    order that keeps the first maximal key, moving on only to a strictly
    larger counter. *)
Definition spec_firstMaxKey (obj : gmap N Z) : option N :=
  match Object_keys obj with
  | [] => None
  | k :: ks =>
      Some (fold_left (λ a b, if js_gt (obj !! b) (obj !! a) then b else a) ks k)
  end.

(** What a confirmation does to the matched document. *)
Definition confirmed_doc (existing : Outage) : Outage :=
  set_confirmation (confirmCount existing + 1)
    (getConfidenceLevel (confirmCount existing + 1)) existing.

(** What a restore at [now] does to an ongoing document. *)
Definition restored_doc (now : Z) (outage : Outage) : Outage :=
  set_restoration now (inject_Z (now - downTime outage) / 60000)%Q outage.

(** ** The remaining routes and the start-up code *)

(** *** MongoDB connection with retry (lines 11-21)

    [connect n] tells whether the call number [n] of [mongoose.connect]
    succeeds.  The result is the console log and whether a connection was
    obtained; [false] is the rethrown error of the last attempt.  The three
    seconds between two attempts are not modelled. *)
Fixpoint connectDB (connect : nat → bool) (attempt retries : nat)
    : list string * bool :=
  if connect attempt then (["MongoDB connected"], true)
  else
    match retries with
    | O => ([], false)
    | S retries' =>
        let '(log, connected) := connectDB connect (S attempt) retries' in
        ("MongoDB retrying..." :: log, connected)
    end.

(** *** 2. Get all outages (lines 97-104) *)

(** [sort({ createdAt: -1 })]. *)
Definition newest_first (a b : Outage) : Prop :=
  (createdAt b ≤ createdAt a)%Z.

#[global] Instance newest_first_dec : RelDecision newest_first.
Proof. intros a b. unfold newest_first. apply _. Defined.

Definition get_outages (st : Store) : Z * list Outage :=
  (200, merge_sort newest_first st).

(** *** 6. Impact metrics (lines 196-224) *)

(** A property name is an array index when it is the canonical decimal
    spelling of an integer below 2^32 - 1. *)
Definition digit_value (c : ascii) : option N :=
  let n := N_of_ascii c in
  if bool_decide (48 ≤ n ≤ 57)%N then Some (n - 48)%N else None.

Fixpoint decimal_value (s : string) (acc : N) : option N :=
  match s with
  | EmptyString => Some acc
  | String c rest =>
      match digit_value c with
      | Some d => decimal_value rest (10 * acc + d)%N
      | None => None
      end
  end.

Definition array_index (k : string) : option N :=
  match k with
  | EmptyString => None
  | String c rest =>
      if bool_decide (c = "0"%char ∧ rest ≠ "") then None
      else
        match decimal_value k 0 with
        | Some n => if bool_decide (n < 2 ^ 32 - 1)%N then Some n else None
        | None => None
        end
  end.

(** An object with arbitrary property names keeps them in insertion order:
    an association list, assigned in place or appended. *)
Fixpoint obj_get (k : string) (obj : list (string * Q)) : option Q :=
  match obj with
  | [] => None
  | (k', v) :: rest => if bool_decide (k' = k) then Some v else obj_get k rest
  end.


Definition index_le (x y : N * string) : Prop := (x.1 ≤ y.1)%N.

#[global] Instance index_le_dec : RelDecision index_le.
Proof. intros x y. unfold index_le. apply _. Defined.

(** [Object.keys]: the array indices in ascending numeric order, then the
    other names in insertion order. *)
Definition Object_keys_named (obj : list (string * Q)) : list string :=
  let indices :=
    omap (λ kv : string * Q, (λ n, (n, kv.1)) <$> array_index kv.1) obj in
  (snd <$> merge_sort index_le indices)
  ++ filter (λ k, array_index k = None) (fst <$> obj).

(** [x > y] on numbers read from an object. *)
Definition js_gtQ (x y : option Q) : bool :=
  match x, y with
  | Some u, Some v => negb (Qle_bool u v)
  | _, _ => false
  end.



Module Impact.

(** The [maxKey] of line 213, on an object with arbitrary names. *)
Definition maxKey (obj : list (string * Q)) : option string :=
  match Object_keys_named obj with
  | [] => None
  | k :: ks =>
      Some (fold_left
              (λ a b, if js_gtQ (obj_get a obj) (obj_get b obj) then a else b)
              ks k)
  end.



End Impact.

(** *** The router over the three writing routes *)

Inductive Request :=
| POST_outages (req : ReportBody) (newId : string) (now : Z)
| PUT_restore (id : string) (now : Z)
| DELETE_outage (x_admin_password : option string) (id : string).

Definition handle (Date_parse : string → option Z)
    (ObjectId_isValid : string → bool) (ADMIN_PASSWORD : option string)
    (r : Request) (st : Store) : Store * Response :=
  match r with
  | POST_outages req newId now => post_outages Date_parse req newId now st
  | PUT_restore id now => put_restore ObjectId_isValid id now st
  | DELETE_outage secret id =>
      delete_outage ObjectId_isValid secret ADMIN_PASSWORD id st
  end.

(** The id handed to a new document is not in the collection. *)
Definition fresh_id (r : Request) (st : Store) : Prop :=
  match r with
  | POST_outages _ newId _ => newId ∉ _id <$> st
  | _ => True
  end.

(** The stores the server can get to from the empty collection. *)
Inductive reachable (Date_parse : string → option Z)
    (ObjectId_isValid : string → bool) (ADMIN_PASSWORD : option string)
    : Store → Prop :=
| reachable_empty : reachable Date_parse ObjectId_isValid ADMIN_PASSWORD []
| reachable_step st r :
    reachable Date_parse ObjectId_isValid ADMIN_PASSWORD st →
    fresh_id r st →
    reachable Date_parse ObjectId_isValid ADMIN_PASSWORD
      (handle Date_parse ObjectId_isValid ADMIN_PASSWORD r st).1.

(** *** Invariants of the collection *)

Definition unique_ids (st : Store) : Prop := NoDup (_id <$> st).

(** At most one ongoing record per (service, area). *)
Definition unique_ongoing (st : Store) : Prop :=
  ∀ o1 o2, o1 ∈ st → o2 ∈ st →
    status o1 = ongoing → status o2 = ongoing →
    service o1 = service o2 → area o1 = area o2 → o1 = o2.

(** What the schema and the handlers maintain on each record. *)
Definition sound_record (o : Outage) : Prop :=
  confirmCount o >= 1 ∧
  confidenceLevel o = getConfidenceLevel (confirmCount o) ∧
  service o ∈ service_enum ∧ area o ≠ "" ∧
  match status o with
  | ongoing => upTime o = None ∧ durationMinutes o = None
  | resolved =>
      ∃ up, upTime o = Some up ∧
            durationMinutes o = Some (inject_Z (up - downTime o) / 60000)%Q
  end.

Definition sound_store (st : Store) : Prop :=
  unique_ids st ∧ unique_ongoing st ∧ Forall sound_record st.

(** The order of the confidence levels. *)
Definition confidence_rank (c : Confidence) : Z :=
  match c with unverified => 0 | likely => 1 | confirmed => 2 end.



(** The store after a sequence of reports. *)
Definition after_reports (Date_parse : string → option Z)
    (reports : list (ReportBody * string * Z)) (st : Store) : Store :=
  fold_left (λ s '(req, newId, now), (post_outages Date_parse req newId now s).1)
    reports st.

(** ** Fixtures: a concrete runtime and concrete stores *)

Module Fixtures.

Definition utc : Z → Z := λ _, 0.
Definition parse_epoch : string → option Z :=
  λ s, if bool_decide (s = "1970-01-01T00:00:07.000Z") then Some 7 else None.
Definition is_hex (c : ascii) : bool :=
  let n := nat_of_ascii c in
  bool_decide (48 ≤ n ≤ 57 ∨ 65 ≤ n ≤ 70 ∨ 97 ≤ n ≤ 102)%nat.
Definition hex24 : string → bool :=
  λ s, bool_decide (String.length s = 24%nat)
       && forallb is_hex (String.list_ascii_of_string s).

Definition id_a := "65a000000000000000000001".
Definition id_b := "65a000000000000000000002".
Definition id_c := "65a000000000000000000003".

Definition fresh (id sv ar : string) (down : Z) : Outage :=
  {| _id := id; service := sv; area := ar; downTime := down;
     upTime := None; durationMinutes := None; status := ongoing;
     confirmCount := 1; confidenceLevel := unverified; createdAt := down |}.

Definition water_north := fresh id_a "Water" "North" (5 * 3600000).
Definition power_south := fresh id_b "Electricity" "South" (3 * 3600000).
Definition two_ongoing : Store := [water_north; power_south].

(** The same outage resolved after 90 seconds. *)
Definition water_resolved : Outage :=
  set_restoration (5 * 3600000 + 90000) (90000 # 60000) water_north.
Definition one_resolved : Store := [water_resolved; power_south].

(** Two resolved outages of one service, of 60 and 120 minutes. *)
Definition resolved_for (id : string) (mins : Z) : Outage :=
  set_restoration (mins * 60000) (inject_Z mins) (fresh id "Water" "North" 0).
Definition sixty_and_onetwenty : Store :=
  [resolved_for id_a 60; resolved_for id_b 120].

Definition report (sv ar dt : string) : ReportBody :=
  {| req_service := Some sv; req_area := Some ar; req_downTime := Some dt |}.

(** The store after a first report, and requests to run on the fixtures. *)
Definition first_report : Request :=
  POST_outages (report "Water" "North" "1970-01-01T00:00:07.000Z") id_a 9.
Definition after_first_report : Store :=
  (handle parse_epoch hex24 None first_report []).1.
Definition second_report : Request :=
  POST_outages (report "Water" "North" "yesterday") id_c 11.
Definition two_more_reports : list (ReportBody * string * Z) :=
  [(report "Water" "North" "yesterday", id_b, 10);
   (report "Water" "North" "today", id_c, 11)].


End Fixtures.

(** ** Facts about the collection *)

Section StoreFacts.

Implicit Types (st : Store) (o doc : Outage) (id sv ar : string).

Lemma findOne_Some sv ar st o :
  Outage_findOne sv ar st = Some o → o ∈ st ∧ matches_ongoing sv ar o.
Proof.
  unfold Outage_findOne. intros Hf. apply find_some in Hf as [Hin Hb].
  apply bool_decide_eq_true in Hb. split; [by apply list_elem_of_In | done].
Qed.

Lemma findOne_None sv ar st :
  Outage_findOne sv ar st = None ↔ ∀ o, o ∈ st → ¬ matches_ongoing sv ar o.
Proof.
  unfold Outage_findOne. split.
  - intros Hf o Hin Hm. apply list_elem_of_In in Hin.
    pose proof (find_none _ _ Hf o Hin) as Hb. simpl in Hb.
    apply bool_decide_eq_false in Hb. by apply Hb.
  - intros Hall. induction st as [|x st IH]; [done|]. simpl.
    rewrite bool_decide_eq_false_2.
    + apply IH. intros o Hin. apply Hall. by right.
    + apply (Hall x). by left.
Qed.

Lemma findOne_exists sv ar st o :
  o ∈ st → matches_ongoing sv ar o → is_Some (Outage_findOne sv ar st).
Proof.
  intros Hin Hm. destruct (Outage_findOne sv ar st) eqn:Hf; [by eexists|].
  exfalso. eapply findOne_None; eauto.
Qed.

Lemma findById_Some id st o :
  Outage_findById id st = Some o → o ∈ st ∧ _id o = id.
Proof.
  unfold Outage_findById. intros Hf. apply find_some in Hf as [Hin Hb].
  apply bool_decide_eq_true in Hb. split; [by apply list_elem_of_In | done].
Qed.

Lemma findById_exists o st : o ∈ st → is_Some (Outage_findById (_id o) st).
Proof.
  unfold Outage_findById. induction st as [|x st IH]; simpl.
  - intros Hin. by apply elem_of_nil in Hin.
  - intros Hin. case_bool_decide as Hx; [by eexists|].
    apply elem_of_cons in Hin as [->|Hin]; [done | by apply IH].
Qed.

Lemma save_length doc st : length (Outage_save doc st) = length st.
Proof.
  induction st as [|x st IH]; [done|]. simpl.
  case_bool_decide; simpl; by rewrite ?IH.
Qed.

Lemma save_ids doc st : _id <$> Outage_save doc st = _id <$> st.
Proof.
  induction st as [|x st IH]; [done|]. cbn [Outage_save].
  case_bool_decide as Hx; rewrite !fmap_cons; [by rewrite Hx | by rewrite IH].
Qed.

Lemma findById_save doc st :
  is_Some (Outage_findById (_id doc) st) →
  Outage_findById (_id doc) (Outage_save doc st) = Some doc.
Proof.
  unfold Outage_findById. induction st as [|x st IH]; simpl.
  - by intros [? ?].
  - case_bool_decide as Hx; simpl.
    + intros _. by rewrite bool_decide_eq_true_2.
    + intros Hs. rewrite bool_decide_eq_false_2; [by apply IH | done].
Qed.

Lemma findById_save_other doc st id :
  id ≠ _id doc →
  Outage_findById id (Outage_save doc st) = Outage_findById id st.
Proof.
  unfold Outage_findById. intros Hne. induction st as [|x st IH]; [done|].
  simpl. destruct (decide (_id x = _id doc)) as [Hx|Hx].
  - rewrite (bool_decide_eq_true_2 _ Hx). simpl.
    rewrite !bool_decide_eq_false_2; congruence.
  - rewrite (bool_decide_eq_false_2 _ Hx). simpl. by rewrite IH.
Qed.


Lemma findByIdAndDelete_present id st o :
  Outage_findById id st = Some o → st ≡ₚ o :: Outage_findByIdAndDelete id st.
Proof.
  unfold Outage_findById. induction st as [|x st IH]; [done|]. simpl.
  case_bool_decide.
  - by intros [= ->].
  - intros Hf. rewrite (IH Hf) at 1. apply Permutation_swap.
Qed.

End StoreFacts.

(** ** Reporting an outage *)

Section ReportFacts.

Variable Date_parse : string → option Z.

Implicit Types (st : Store) (o existing : Outage) (req : ReportBody).

Lemma truthy_Some s : s ≠ "" → truthy (Some s) = true.
Proof. intros Hs. unfold truthy. by apply bool_decide_eq_true_2. Qed.

Lemma post_outages_confirm req sv ar dt newId now st existing :
  present_report req sv ar dt →
  Outage_findOne sv ar st = Some existing →
  post_outages Date_parse req newId now st =
    (Outage_save (confirmed_doc existing) st,
     status_json 200
       (Confirmation "Confirmation added" (confirmed_doc existing))).
Proof.
  intros (Hs & Ha & Hd & Hsv & Har & Hdt) Hfind. unfold post_outages.
  rewrite Hs, Ha, Hd, !truthy_Some by done. simpl. by rewrite Hfind.
Qed.

Lemma post_outages_insert req newId now st st' r :
  post_outages Date_parse req newId now st = (st', r) →
  length st' ≠ length st →
  code r = 201 ∧ ∃ o, body r = OutageDoc o ∧ st' = st ++ [o].
Proof.
  unfold post_outages. intros Hpost Hlen.
  destruct (req_service req) as [sv|]; [|by simplify_eq].
  destruct (req_area req) as [ar|]; [|by simplify_eq].
  destruct (req_downTime req) as [dt|]; [|by simplify_eq].
  destruct (_ || _); [by simplify_eq|].
  destruct (Outage_findOne sv ar st) as [existing|].
  - simplify_eq. by rewrite save_length in Hlen.
  - destruct (Outage_create _ _ _ _ _ _) as [[doc st2]|] eqn:Hc;
      [|by simplify_eq].
    simplify_eq. unfold Outage_create in Hc.
    destruct (Date_parse dt); [|done]. destruct (_ && _); [|done].
    simplify_eq. eauto.
Qed.

Lemma getConfidenceLevel_cases count :
  (count >= 3 → getConfidenceLevel count = confirmed) ∧
  (count = 2 → getConfidenceLevel count = likely) ∧
  (count < 2 → getConfidenceLevel count = unverified).
Proof.
  unfold getConfidenceLevel. repeat case_bool_decide; repeat split; intros; lia.
Qed.

(** C1: a report with its three fields present that matches an ongoing
    outage of the same service and area adds 1 to the confirmCount of the
    matched record, inserts nothing, sets confidenceLevel from the new
    count (at least 3: confirmed; 2: likely; otherwise unverified) and
    answers 200 "Confirmation added", which no inserting call answers
    (those answer 201 with the bare document). *)
Theorem report_confirms_existing req sv ar dt newId now st o :
  present_report req sv ar dt →
  o ∈ st → matches_ongoing sv ar o →
  ∃ existing updated st',
    existing ∈ st ∧ matches_ongoing sv ar existing ∧
    post_outages Date_parse req newId now st =
      (st', status_json 200 (Confirmation "Confirmation added" updated)) ∧
    confirmCount updated = confirmCount existing + 1 ∧
    _id updated = _id existing ∧
    Outage_findById (_id existing) st' = Some updated ∧
    length st' = length st ∧ _id <$> st' = _id <$> st ∧
    (confirmCount updated >= 3 → confidenceLevel updated = confirmed) ∧
    (confirmCount updated = 2 → confidenceLevel updated = likely) ∧
    (confirmCount updated < 2 → confidenceLevel updated = unverified) ∧
    (∀ req0 id0 now0 st0 st1 r,
        post_outages Date_parse req0 id0 now0 st0 = (st1, r) →
        length st1 ≠ length st0 →
        code r = 201 ∧ ∃ created, body r = OutageDoc created).
Proof.
  intros Hreq Hin Hm.
  destruct (findOne_exists sv ar st o Hin Hm) as [existing Hfind].
  destruct (findOne_Some _ _ _ _ Hfind) as [Hex Hmex].
  exists existing, (confirmed_doc existing),
    (Outage_save (confirmed_doc existing) st).
  split_and!; try done.
  - by eapply post_outages_confirm.
  - change (_id existing) with (_id (confirmed_doc existing)).
    apply findById_save. by apply (findById_exists existing).
  - apply save_length.
  - apply save_ids.
  - apply getConfidenceLevel_cases.
  - apply getConfidenceLevel_cases.
  - apply getConfidenceLevel_cases.
  - intros req0 id0 now0 st0 st1 r Hp Hl.
    destruct (post_outages_insert _ _ _ _ _ _ Hp Hl) as (? & c & ? & ?); eauto.
Qed.

(** C2: a valid report (fields present, service in the enum, downTime
    parseable) that matches no ongoing outage appends one new record and
    returns it with confirmCount 1, confidenceLevel unverified, status
    ongoing, upTime null and durationMinutes null. *)
Theorem report_creates_new req sv ar dt t newId now st :
  present_report req sv ar dt →
  sv ∈ service_enum → Date_parse dt = Some t →
  (∀ o, o ∈ st → ¬ matches_ongoing sv ar o) →
  ∃ doc,
    post_outages Date_parse req newId now st =
      (st ++ [doc], status_json 201 (OutageDoc doc)) ∧
    confirmCount doc = 1 ∧ confidenceLevel doc = unverified ∧
    status doc = ongoing ∧ upTime doc = None ∧ durationMinutes doc = None ∧
    service doc = sv ∧ area doc = ar ∧ downTime doc = t ∧
    _id doc = newId ∧ createdAt doc = now.
Proof.
  intros (Hs & Ha & Hd & Hsv & Har & Hdt) Henum Hparse Hnone.
  apply findOne_None in Hnone. eexists. split.
  - unfold post_outages. rewrite Hs, Ha, Hd, !truthy_Some by done. simpl.
    rewrite Hnone, Hparse. unfold Outage_create.
    rewrite (bool_decide_eq_true_2 _ Henum), (bool_decide_eq_true_2 _ Har).
    simpl. reflexivity.
  - by split_and!.
Qed.

(** C10: a confirmation changes confirmCount and confidenceLevel only;
    service, area, downTime, upTime, durationMinutes, status, createdAt (and
    the id) of the matched record stay as stored, every other record is
    untouched, and the downTime sent with the confirming report has no
    influence on the outcome. *)
Theorem confirmation_frame req sv ar dt newId now st existing :
  present_report req sv ar dt →
  Outage_findOne sv ar st = Some existing →
  ∃ updated st',
    post_outages Date_parse req newId now st =
      (st', status_json 200 (Confirmation "Confirmation added" updated)) ∧
    Outage_findById (_id existing) st' = Some updated ∧
    _id updated = _id existing ∧
    service updated = service existing ∧ area updated = area existing ∧
    downTime updated = downTime existing ∧ upTime updated = upTime existing ∧
    durationMinutes updated = durationMinutes existing ∧
    status updated = status existing ∧
    createdAt updated = createdAt existing ∧
    (∀ id, id ≠ _id existing →
           Outage_findById id st' = Outage_findById id st) ∧
    (∀ req2 dt2 id2 now2,
        present_report req2 sv ar dt2 →
        post_outages Date_parse req2 id2 now2 st =
          (st', status_json 200
                  (Confirmation "Confirmation added" updated))).
Proof.
  intros Hreq Hfind.
  exists (confirmed_doc existing), (Outage_save (confirmed_doc existing) st).
  split_and!; try done.
  - by eapply post_outages_confirm.
  - change (_id existing) with (_id (confirmed_doc existing)).
    apply findById_save, (findById_exists existing).
    by apply findOne_Some in Hfind as [? ?].
  - intros id Hid. by apply findById_save_other.
  - intros req2 dt2 id2 now2 Hreq2. by eapply post_outages_confirm.
Qed.

End ReportFacts.

(** ** Restoring and deleting *)

Section RestoreDeleteFacts.

Variable ObjectId_isValid : string → bool.

Implicit Types (st : Store) (outage restored : Outage) (id : string).

Lemma put_restore_ongoing id now st outage :
  ObjectId_isValid id = true →
  Outage_findById id st = Some outage → status outage = ongoing →
  put_restore ObjectId_isValid id now st =
    (Outage_save (restored_doc now outage) st,
     json (OutageDoc (restored_doc now outage))).
Proof.
  intros Hid Hfind Hst. unfold put_restore, isValidObjectId.
  by rewrite Hid, Hfind, Hst.
Qed.

Lemma put_restore_resolved id now st outage :
  ObjectId_isValid id = true →
  Outage_findById id st = Some outage → status outage = resolved →
  put_restore ObjectId_isValid id now st =
    (st, status_json 400 (Message "Already resolved")).
Proof.
  intros Hid Hfind Hst. unfold put_restore, isValidObjectId.
  by rewrite Hid, Hfind, Hst.
Qed.

Lemma put_restore_success id now st st1 restored :
  put_restore ObjectId_isValid id now st = (st1, json (OutageDoc restored)) →
  ∃ outage,
    ObjectId_isValid id = true ∧ Outage_findById id st = Some outage ∧
    status outage = ongoing ∧ restored = restored_doc now outage ∧
    st1 = Outage_save restored st.
Proof.
  unfold put_restore, isValidObjectId. intros Hr.
  destruct (ObjectId_isValid id) eqn:Hid; [|by simplify_eq].
  destruct (Outage_findById id st) as [outage|] eqn:Hfind; [|by simplify_eq].
  simpl in Hr. case_bool_decide as Hst; [by simplify_eq|].
  unfold json in Hr. simplify_eq. exists outage. split_and!; try done.
  by destruct (status outage).
Qed.

Lemma findById_restored id now st outage :
  Outage_findById id st = Some outage →
  Outage_findById id (Outage_save (restored_doc now outage) st)
    = Some (restored_doc now outage).
Proof.
  intros Hfind. destruct (findById_Some _ _ _ Hfind) as [Hin <-].
  change (_id outage) with (_id (restored_doc now outage)).
  by apply findById_save, (findById_exists outage).
Qed.

(** C3: once a restore has succeeded, another restore of the same id is
    rejected with "Already resolved" and leaves the whole store as it was:
    the record still carries the upTime and durationMinutes of the first
    call. *)
Theorem restore_is_one_way id now1 now2 st st1 restored :
  put_restore ObjectId_isValid id now1 st = (st1, json (OutageDoc restored)) →
  put_restore ObjectId_isValid id now2 st1 =
    (st1, status_json 400 (Message "Already resolved")) ∧
  Outage_findById id st1 = Some restored ∧
  status restored = resolved ∧
  upTime restored = Some now1 ∧
  is_Some (durationMinutes restored).
Proof.
  intros Hfirst.
  destruct (put_restore_success _ _ _ _ _ Hfirst)
    as (outage & Hid & Hfind & Hst & -> & ->).
  pose proof (findById_restored id now1 st outage Hfind) as Hnew.
  split_and!; try done.
  by apply (put_restore_resolved id now2 _ (restored_doc now1 outage)).
Qed.


(** C5: a supplied secret different from the configured one is answered
    403 "Forbidden" whatever the id is (malformed, unknown or known); the
    store is not touched. *)
Theorem delete_wrong_secret_forbidden supplied configured id st :
  supplied ≠ configured →
  delete_outage ObjectId_isValid supplied configured id st =
    (st, status_json 403 (Message "Forbidden")).
Proof.
  intros Hne. unfold delete_outage. by rewrite bool_decide_eq_true_2.
Qed.


(** C9: with no ADMIN_PASSWORD configured, a request without the header
    passes the check and deletes the record; in general the answer is
    "Forbidden" exactly when header and configuration differ. *)
Theorem delete_unconfigured_secret id st outage :
  ObjectId_isValid id = true →
  Outage_findById id st = Some outage →
  ∃ st',
    delete_outage ObjectId_isValid None None id st =
      (st', json (Message "Deleted")) ∧
    st ≡ₚ outage :: st' ∧
    (∀ supplied configured id2 st2,
        (delete_outage ObjectId_isValid supplied configured id2 st2).2
          = status_json 403 (Message "Forbidden")
        ↔ supplied ≠ configured).
Proof.
  intros Hid Hfind. exists (Outage_findByIdAndDelete id st). split_and!.
  - unfold delete_outage, isValidObjectId.
    rewrite bool_decide_eq_false_2 by (intros Hc; by apply Hc).
    by rewrite Hid.
  - by apply findByIdAndDelete_present.
  - intros supplied configured id2 st2. unfold delete_outage.
    case_bool_decide as Hc; [done|]. simpl.
    split; [|by intros ?].
    destruct (negb _); simpl; intros [=].
Qed.

End RestoreDeleteFacts.

(** ** Downtime analytics *)

Section StatsFacts.

Implicit Types (st : Store) (o : Outage) (sv : string) (m : gmap string Q).






End StatsFacts.

Section StatsTheorem.

Implicit Types (st : Store) (o : Outage) (sv : string).



End StatsTheorem.

(** ** Time-based intelligence *)

Section MaxKeyFacts.

Implicit Types (obj : gmap N Z) (k r : N) (ks : list N).

Lemma Object_keys_elem {V} (m : gmap N V) k :
  k ∈ Object_keys m ↔ is_Some (m !! k).
Proof.
  unfold Object_keys. rewrite merge_sort_Permutation, list_elem_of_fmap.
  split.
  - intros ([k' v] & -> & Hin). apply elem_of_map_to_list in Hin. by eexists.
  - intros [v Hv]. exists (k, v). split; [done|].
    by apply elem_of_map_to_list.
Qed.

Lemma sorted_distinct_ascending ks :
  StronglySorted N.le ks → NoDup ks → StronglySorted N.lt ks.
Proof.
  induction 1 as [|x l Hs IH Hall]; [constructor|].
  intros [Hx Hnd]%NoDup_cons. constructor; [by apply IH|].
  apply Forall_forall. intros y Hy.
  assert (x ≠ y) by (intros ->; done).
  rewrite Forall_forall in Hall. specialize (Hall y Hy). lia.
Qed.

Lemma Object_keys_ascending {V} (m : gmap N V) :
  StronglySorted N.lt (Object_keys m).
Proof.
  unfold Object_keys. apply sorted_distinct_ascending.
  - apply StronglySorted_merge_sort; apply _.
  - rewrite merge_sort_Permutation. apply NoDup_fst_map_to_list.
Qed.

Lemma maxKey_scan obj ks k :
  Forall (λ x, is_Some (obj !! x)) (k :: ks) →
  let r := fold_left
             (λ a b, if js_gt (obj !! a) (obj !! b) then a else b) ks k in
  (counter obj k ≤ counter obj r)%Z ∧
  ∃ l1 l2, k :: ks = l1 ++ r :: l2 ∧
    Forall (λ x, (counter obj x ≤ counter obj r)%Z) l1 ∧
    Forall (λ x, (counter obj x < counter obj r)%Z) l2.
Proof.
  revert k. induction ks as [|b ks IH]; intros k Hall.
  - simpl. split; [lia|]. by exists [], [].
  - cbn [fold_left].
    apply Forall_cons in Hall as [[vk Hk] Hall].
    pose proof Hall as Hall'.
    apply Forall_cons in Hall' as [[vb Hb] Hks].
    rewrite Hk, Hb. cbn [js_gt]. case_bool_decide as Hgt.
    + destruct (IH k) as (Hle & l1 & l2 & Heq & H1 & H2).
      { apply Forall_cons. split; [by eexists | done]. }
      split; [done|]. unfold counter in *. rewrite Hk in Hle. simpl in Hle.
      destruct l1 as [|x l1]; injection Heq as Hhd Htl.
      * exists [], (b :: ks). rewrite <- Hhd, <- Htl in *.
        split_and!; [done|done|].
        apply Forall_cons. split; [rewrite Hk, Hb; simpl; lia | done].
      * exists (x :: b :: l1), l2. subst x.
        split_and!; [simpl; do 2 f_equal; exact Htl| |done].
        apply Forall_cons in H1 as [Hx H1].
        apply Forall_cons. split; [done|].
        apply Forall_cons. split; [|done].
        rewrite Hb. simpl. lia.
    + destruct (IH b Hall) as (Hle & l1 & l2 & Heq & H1 & H2).
      unfold counter in *. rewrite Hb in Hle. simpl in Hle.
      split; [rewrite Hk; simpl; lia|].
      exists (k :: l1), l2. split_and!; [by rewrite Heq| |done].
      apply Forall_cons. split; [|done]. rewrite Hk. simpl. lia.
Qed.

End MaxKeyFacts.

Section TallyFacts.

Context {K : Type} `{Countable K}.
Implicit Types (key : Outage → K) (k : K) (l : list Outage) (m : gmap K Z).

Lemma or_zeroZ_Some c : or_zeroZ (Some c) = c.
Proof. unfold or_zeroZ. by case_bool_decide. Qed.

Lemma tally_cons key k o l :
  tally key k (o :: l) =
    if decide (key o = k) then (1 + tally key k l)%Z else tally key k l.
Proof.
  unfold tally. rewrite filter_cons. case_decide; [|done].
  rewrite length_cons. lia.
Qed.

Lemma tally_nonneg key k l : (0 ≤ tally key k l)%Z.
Proof. unfold tally. lia. Qed.

Lemma tally_pos key k l : (0 < tally key k l)%Z ↔ ∃ o, o ∈ l ∧ key o = k.
Proof.
  unfold tally. split.
  - intros Hpos. destruct (filter (λ o, key o = k) l) as [|o l'] eqn:Hf;
      [simpl in Hpos; lia|].
    assert (o ∈ filter (λ o, key o = k) l) as Ho by (rewrite Hf; by left).
    apply list_elem_of_filter in Ho as [? ?]. by exists o.
  - intros (o & Ho & Hk).
    assert (o ∈ filter (λ o, key o = k) l) as Hin
      by (by apply list_elem_of_filter).
    destruct (filter (λ o, key o = k) l); [by apply elem_of_nil in Hin|].
    rewrite length_cons. lia.
Qed.

Lemma count_fold_lookup key l m0 k :
  fold_left (λ m o, count_up (key o) m) l m0 !! k =
    if decide (tally key k l = 0)
    then m0 !! k
    else Some (or_zeroZ (m0 !! k) + tally key k l)%Z.
Proof.
  revert m0. induction l as [|o l IH]; intros m0; [done|].
  cbn [fold_left]. rewrite IH, tally_cons. unfold count_up.
  pose proof (tally_nonneg key k l).
  destruct (decide (key o = k)) as [->|Hk].
  - rewrite lookup_insert_eq, or_zeroZ_Some.
    repeat case_decide; try lia; f_equal; lia.
  - by rewrite lookup_insert_ne.
Qed.

Lemma count_fold_empty key l k :
  fold_left (λ m o, count_up (key o) m) l ∅ !! k =
    if decide (tally key k l = 0) then None else Some (tally key k l).
Proof.
  rewrite count_fold_lookup, lookup_empty. by case_decide.
Qed.

End TallyFacts.

Section PeakFacts.

Implicit Types (key : Outage → N) (l : list Outage) (k r : N).

Lemma maxKey_tally key l :
  l ≠ [] →
  ∃ r, maxKey (fold_left (λ m o, count_up (key o) m) l ∅) = Some r ∧
    (∃ o, o ∈ l ∧ key o = r) ∧
    (∀ k, tally key k l ≤ tally key r l)%Z ∧
    (∀ k, tally key k l = tally key r l → (k ≤ r)%N).
Proof.
  intros Hne. set (obj := fold_left (λ m o, count_up (key o) m) l ∅).
  assert (∀ k, counter obj k = tally key k l) as Hcnt.
  { intros k. unfold counter, obj. rewrite count_fold_empty.
    by case_decide. }
  assert (∀ k, k ∈ Object_keys obj ↔ (0 < tally key k l)%Z) as Hkeys.
  { intros k. rewrite Object_keys_elem. unfold obj.
    rewrite count_fold_empty. pose proof (tally_nonneg key k l).
    case_decide; split; try lia; [by intros [? ?] | by eexists]. }
  pose proof (Object_keys_ascending obj) as Hsorted.
  unfold maxKey. destruct (Object_keys obj) as [|k0 ks] eqn:Hks.
  { destruct l as [|o l]; [done|]. exfalso.
    apply (elem_of_nil (key o)), Hkeys, tally_pos.
    exists o. split; [by left | done]. }
  destruct (maxKey_scan obj ks k0) as (_ & l1 & l2 & Heq & H1 & H2).
  { apply Forall_forall. intros x Hx. apply Object_keys_elem.
    by rewrite Hks. }
  set (r := fold_left _ ks k0) in *. exists r.
  rewrite Forall_forall in H1. rewrite Forall_forall in H2.
  assert (∀ k, (0 < tally key k l)%Z →
               k ∈ l1 ∨ k = r ∨ k ∈ l2) as Hsplit.
  { intros k Hk. apply Hkeys in Hk. rewrite Heq in Hk.
    apply elem_of_app in Hk as [?|Hk]; [by left|].
    apply elem_of_cons in Hk as [?|?]; auto. }
  assert (0 < tally key r l)%Z as Hr.
  { apply Hkeys. rewrite Heq. apply elem_of_app. right. by left. }
  split_and!; [done| by apply tally_pos | |].
  - intros k. pose proof (tally_nonneg key k l).
    destruct (decide (tally key k l = 0)) as [->|Hk]; [lia|].
    rewrite <- !Hcnt.
    destruct (Hsplit k) as [Hin|[->|Hin]]; [lia| |done|].
    + by apply H1.
    + apply H2 in Hin. lia.
  - intros k Htie.
    destruct (Hsplit k) as [Hin|[->|Hin]]; [lia| |done|].
    + rewrite Heq in Hsorted.
      assert (k < r)%N; [|lia].
      eapply (StronglySorted_app_1_elem_of _ l1 (r :: l2)); [done..|by left].
    + apply H2 in Hin. rewrite !Hcnt in Hin. lia.
Qed.

End PeakFacts.

Section InsightsFacts.

Variable tzOffset : Z → Z.

Implicit Types (st : Store) (o : Outage) (h : N).

Lemma insights_fold l hourMap dayMap areaMap :
  fold_left (insights_step tzOffset) l (hourMap, dayMap, areaMap) =
    (fold_left (λ m o, count_up (getHours tzOffset (downTime o)) m) l hourMap,
     fold_left (λ m o, count_up (getDay tzOffset (downTime o)) m) l dayMap,
     fold_left (λ m o, count_up (area o) m) l areaMap).
Proof.
  revert hourMap dayMap areaMap.
  induction l as [|o l IH]; intros hourMap dayMap areaMap; [done|].
  cbn [fold_left insights_step]. by rewrite IH.
Qed.

Lemma getHours_range d : (getHours tzOffset d < 24)%N.
Proof.
  unfold getHours.
  pose proof (Z.mod_pos_bound ((d + tzOffset d) `div` 3600000) 24). lia.
Qed.

(** C7, as the code has it: for a non-empty store the peak hour is an hour
    of day (below 24) of some stored outage, no hour occurs more often, and
    among the hours that occur as often it is the largest one, that is the
    last maximal key in the ascending order in which the keys are scanned. *)
Theorem peak_hour_is_last_maximal st :
  st ≠ [] →
  ∃ ins, get_insights tzOffset st = json (InsightsDoc ins) ∧
    let hour := λ o, getHours tzOffset (downTime o) in
    let peak := peakOutageHour ins in
    (peak < 24)%N ∧
    (∃ o, o ∈ st ∧ hour o = peak) ∧
    (∀ h, tally hour h st ≤ tally hour peak st)%Z ∧
    (∀ h, tally hour h st = tally hour peak st → (h ≤ peak)%N).
Proof.
  intros Hne. unfold get_insights.
  rewrite bool_decide_eq_false_2 by (by destruct st).
  rewrite insights_fold.
  destruct (maxKey_tally (λ o, getHours tzOffset (downTime o)) st Hne)
    as (peak & -> & (o & Ho & Hpeak) & Hmax & Htie).
  destruct (maxKey_tally (λ o, getDay tzOffset (downTime o)) st Hne)
    as (day & -> & _).
  eexists. split; [reflexivity|].
  cbn [peakOutageHour]. split_and!; try done.
  - rewrite <- Hpeak. apply getHours_range.
  - by exists o.
Qed.

End InsightsFacts.

(** C7, as the spec words it, fails: two outages at 05:00 and 03:00 UTC tie
    with one occurrence each; the keys are scanned as 3, 5, a first-maximal
    scan answers 3, and the handler answers 5. *)
Lemma peak_hour_not_first_maximal :
  let hourMap :=
    (fold_left (insights_step Fixtures.utc) Fixtures.two_ongoing (∅, ∅, ∅)).1.1 in
  Object_keys hourMap = [3; 5]%N ∧
  hourMap !! 3%N = Some 1 ∧ hourMap !! 5%N = Some 1 ∧
  spec_firstMaxKey hourMap = Some 3%N ∧
  ∃ ins, get_insights Fixtures.utc Fixtures.two_ongoing = json (InsightsDoc ins) ∧
         peakOutageHour ins = 5%N ∧
         Some (peakOutageHour ins) ≠ spec_firstMaxKey hourMap.
Proof.
  vm_compute. split_and!; try reflexivity.
  eexists. split_and!; [reflexivity|reflexivity|discriminate].
Qed.

(** ** The properties at concrete inputs *)

Section ConcreteRuns.

Import Fixtures.

Lemma report_confirms_existing_witness :
  ∃ existing updated st',
    existing ∈ two_ongoing ∧
    post_outages parse_epoch (report "Water" "North" "yesterday") id_c 9
      two_ongoing =
      (st', status_json 200 (Confirmation "Confirmation added" updated)) ∧
    confirmCount updated = confirmCount existing + 1 ∧
    length st' = length two_ongoing.
Proof.
  destruct (report_confirms_existing parse_epoch
              (report "Water" "North" "yesterday")
              "Water" "North" "yesterday" id_c 9 two_ongoing water_north)
    as (e & u & s & H1 & _ & H2 & H3 & _ & _ & H4 & _).
  - by repeat split.
  - by left.
  - by repeat split.
  - by exists e, u, s.
Defined.

Lemma report_creates_new_witness :
  ∃ doc,
    post_outages parse_epoch
      (report "Internet" "North" "1970-01-01T00:00:07.000Z") id_c 9
      two_ongoing =
      (two_ongoing ++ [doc], status_json 201 (OutageDoc doc)) ∧
    confirmCount doc = 1 ∧ confidenceLevel doc = unverified ∧
    status doc = ongoing ∧ upTime doc = None ∧ durationMinutes doc = None.
Proof.
  destruct (report_creates_new parse_epoch
              (report "Internet" "North" "1970-01-01T00:00:07.000Z")
              "Internet" "North" "1970-01-01T00:00:07.000Z" 7 id_c 9
              two_ongoing)
    as (doc & H1 & H2 & H3 & H4 & H5 & H6 & _).
  - by repeat split.
  - unfold service_enum. do 2 right. left.
  - reflexivity.
  - apply findOne_None. reflexivity.
  - by exists doc.
Defined.

Lemma confirmation_frame_witness :
  ∃ updated st',
    post_outages parse_epoch (report "Water" "North" "yesterday") id_c 9
      two_ongoing =
      (st', status_json 200 (Confirmation "Confirmation added" updated)) ∧
    downTime updated = downTime water_north ∧
    Outage_findById id_b st' = Outage_findById id_b two_ongoing.
Proof.
  destruct (confirmation_frame parse_epoch
              (report "Water" "North" "yesterday")
              "Water" "North" "yesterday" id_c 9 two_ongoing water_north)
    as (u & s & H1 & _ & _ & _ & _ & H2 & _ & _ & _ & _ & H3 & _).
  - by repeat split.
  - reflexivity.
  - exists u, s. split_and!; [done|done|]. by apply H3.
Defined.

Lemma restore_is_one_way_witness :
  put_restore hex24 id_a (5 * 3600000 + 150000) one_resolved =
    (one_resolved, status_json 400 (Message "Already resolved")) ∧
  Outage_findById id_a one_resolved = Some water_resolved.
Proof.
  destruct (restore_is_one_way hex24 id_a (5 * 3600000 + 90000)
              (5 * 3600000 + 150000) two_ongoing one_resolved water_resolved)
    as (H1 & H2 & _).
  - reflexivity.
  - by split.
Defined.


Lemma delete_wrong_secret_forbidden_witness :
  delete_outage hex24 (Some "guess") (Some "s3cret") "not-an-id" [] =
    ([], status_json 403 (Message "Forbidden")).
Proof.
  apply (delete_wrong_secret_forbidden hex24 (Some "guess") (Some "s3cret")).
  discriminate.
Defined.


Lemma delete_unconfigured_secret_witness :
  ∃ st', delete_outage hex24 None None id_a two_ongoing =
           (st', json (Message "Deleted")) ∧
         two_ongoing ≡ₚ water_north :: st'.
Proof.
  destruct (delete_unconfigured_secret hex24 id_a two_ongoing water_north)
    as (s & H1 & H2 & _).
  - reflexivity.
  - reflexivity.
  - by exists s.
Defined.


Lemma peak_hour_is_last_maximal_witness :
  ∃ ins, get_insights utc two_ongoing = json (InsightsDoc ins) ∧
         (peakOutageHour ins < 24)%N.
Proof.
  destruct (peak_hour_is_last_maximal utc two_ongoing) as (i & H1 & H2 & _).
  - discriminate.
  - by exists i.
Defined.

(** The worked example of the spec: 60 and 120 minutes for one service
    give a total of 180, an average of 90 and a score of 94. *)
Example stats_sixty_and_onetwenty :
  ∃ s total score,
    get_stats sixty_and_onetwenty = json (StatsDoc s) ∧
    (totalDowntimeMinutes s == 180)%Q ∧
    (averageDowntimeMinutes s == 90)%Q ∧
    serviceWiseDowntime s !! "Water" = Some total ∧ (total == 180)%Q ∧
    reliabilityScores s !! "Water" = Some score ∧ (score == 94)%Q.
Proof.
  eexists _, _, _. split; [vm_compute; reflexivity|].
  split_and!; by vm_compute.
Qed.

(** Presence alone does not make a report valid: a service outside the
    enum, or a downTime that is no date, is rejected by the schema and
    answered by the central error handler; nothing is stored. *)
Example report_rejected_by_schema :
  post_outages parse_epoch (report "Gas" "North" "1970-01-01T00:00:07.000Z")
    id_c 9 two_ongoing = (two_ongoing, server_error) ∧
  post_outages parse_epoch (report "Internet" "North" "yesterday")
    id_c 9 two_ongoing = (two_ongoing, server_error).
Proof. split; reflexivity. Qed.

(** 90 seconds of downtime are stored as one minute and a half. *)
Example restore_keeps_fraction :
  ∃ st' restored mins,
    put_restore hex24 id_a (5 * 3600000 + 90000) two_ongoing =
      (st', json (OutageDoc restored)) ∧
    durationMinutes restored = Some mins ∧ (mins == 3 # 2)%Q.
Proof. eexists _, _, _. split_and!; by vm_compute. Qed.

End ConcreteRuns.

(** ** More facts about the collection *)

Section StoreInvariantFacts.

Implicit Types (st : Store) (o doc : Outage) (id : string).

Lemma findById_None id st :
  Outage_findById id st = None ↔ id ∉ _id <$> st.
Proof.
  unfold Outage_findById. induction st as [|x st IH]; csimpl.
  - split; [intros _; apply not_elem_of_nil | done].
  - rewrite not_elem_of_cons. case_bool_decide as Hx.
    + split; [done | intros [? _]; congruence].
    + rewrite IH. split; [intros ?; split; [congruence|done] | by intros [_ ?]].
Qed.

Lemma findById_unique o st :
  unique_ids st → o ∈ st → Outage_findById (_id o) st = Some o.
Proof.
  unfold unique_ids, Outage_findById. induction st as [|x st IH]; csimpl.
  - intros _ Hin. by apply elem_of_nil in Hin.
  - intros [Hx Hnd]%NoDup_cons Hin.
    apply elem_of_cons in Hin as [->|Hin].
    + by rewrite bool_decide_eq_true_2.
    + rewrite bool_decide_eq_false_2; [by apply IH|].
      intros Heq. apply Hx. rewrite Heq. by apply list_elem_of_fmap_2.
Qed.

Lemma findById_app_l id st1 st2 o :
  Outage_findById id st1 = Some o → Outage_findById id (st1 ++ st2) = Some o.
Proof.
  unfold Outage_findById. induction st1 as [|x st1 IH]; simpl; [done|].
  by case_bool_decide.
Qed.

Lemma elem_of_save doc st o :
  unique_ids st → o ∈ Outage_save doc st →
  o = doc ∨ (o ∈ st ∧ _id o ≠ _id doc).
Proof.
  unfold unique_ids. induction st as [|x st IH]; csimpl.
  - intros _ Hin. by apply elem_of_nil in Hin.
  - intros [Hx Hnd]%NoDup_cons.
    case_bool_decide as Hid.
    + intros [->|Hin]%elem_of_cons; [by left|]. right.
      split; [by right|]. intros Heq. apply Hx.
      rewrite Hid, <- Heq. by apply list_elem_of_fmap_2.
    + intros [->|Hin]%elem_of_cons.
      * right. split; [by left | done].
      * destruct (IH Hnd Hin) as [->|[? ?]]; [by left|].
        right. split; [by right | done].
Qed.

Lemma save_Forall (P : Outage → Prop) doc st :
  P doc → Forall P st → Forall P (Outage_save doc st).
Proof.
  intros Hdoc. induction 1 as [|x st Hx Hst IH]; simpl; [constructor|].
  case_bool_decide; constructor; done.
Qed.

Lemma elem_of_delete id st o :
  o ∈ Outage_findByIdAndDelete id st → o ∈ st.
Proof.
  induction st as [|x st IH]; simpl; [done|].
  case_bool_decide.
  - intros ?. by right.
  - intros [->|Hin]%elem_of_cons; [by left | right; by apply IH].
Qed.

Lemma delete_ids_sublist id st :
  sublist (_id <$> Outage_findByIdAndDelete id st) (_id <$> st).
Proof.
  induction st as [|x st IH]; csimpl; [done|].
  case_bool_decide; csimpl.
  - by apply sublist_cons.
  - by apply sublist_skip.
Qed.

Lemma findById_delete id st :
  unique_ids st → Outage_findById id (Outage_findByIdAndDelete id st) = None.
Proof.
  unfold unique_ids. intros Hnd. apply findById_None.
  induction st as [|x st IH]; csimpl; [apply not_elem_of_nil|].
  csimpl in Hnd. apply NoDup_cons in Hnd as [Hx Hnd].
  case_bool_decide as Hid.
  - by rewrite <- Hid.
  - csimpl. rewrite not_elem_of_cons. split; [congruence | by apply IH].
Qed.

Lemma findById_delete_other id id' st :
  id' ≠ id →
  Outage_findById id' (Outage_findByIdAndDelete id st) = Outage_findById id' st.
Proof.
  unfold Outage_findById. intros Hne. induction st as [|x st IH]; [done|].
  simpl. case_bool_decide as Hid.
  - rewrite bool_decide_eq_false_2; [done | congruence].
  - simpl. by rewrite IH.
Qed.

Lemma findOne_save_confirmed sv ar st existing :
  unique_ids st →
  Outage_findOne sv ar st = Some existing →
  Outage_findOne sv ar (Outage_save (confirmed_doc existing) st)
    = Some (confirmed_doc existing).
Proof.
  unfold unique_ids, Outage_findOne. induction st as [|x st IH]; csimpl; [done|].
  intros [Hx Hnd]%NoDup_cons.
  case_bool_decide as Hm.
  - intros [= ->]. rewrite bool_decide_eq_true_2 by done. simpl.
    by rewrite bool_decide_eq_true_2.
  - intros Hfind.
    assert (existing ∈ st) as Hin.
    { apply find_some in Hfind as [Hin _]. by apply list_elem_of_In. }
    rewrite bool_decide_eq_false_2.
    + simpl. rewrite bool_decide_eq_false_2 by done. by apply IH.
    + simpl. intros Heq. apply Hx. rewrite Heq. by apply list_elem_of_fmap_2.
Qed.

End StoreInvariantFacts.

(** ** Invariants of the reachable stores *)

Section InvariantFacts.

Variable Date_parse : string → option Z.
Variable ObjectId_isValid : string → bool.
Variable ADMIN_PASSWORD : option string.

Implicit Types (st : Store) (o doc existing outage : Outage) (id : string).

Lemma post_outages_store req newId now st :
  let st' := (post_outages Date_parse req newId now st).1 in
  st' = st ∨
  (∃ existing,
      Outage_findOne (service existing) (area existing) st = Some existing ∧
      st' = Outage_save (confirmed_doc existing) st) ∨
  (∃ doc,
      st' = st ++ [doc] ∧ _id doc = newId ∧ status doc = ongoing ∧
      confirmCount doc = 1 ∧ confidenceLevel doc = unverified ∧
      upTime doc = None ∧ durationMinutes doc = None ∧
      service doc ∈ service_enum ∧ area doc ≠ "" ∧
      Outage_findOne (service doc) (area doc) st = None).
Proof.
  unfold post_outages.
  destruct (req_service req) as [sv|]; [|by left].
  destruct (req_area req) as [ar|]; [|by left].
  destruct (req_downTime req) as [dt|]; [|by left].
  destruct (_ || _); [by left|].
  destruct (Outage_findOne sv ar st) as [existing|] eqn:Hfind.
  - right. left. exists existing.
    destruct (findOne_Some _ _ _ _ Hfind) as (_ & <- & <- & _). by split.
  - unfold Outage_create. destruct (Date_parse dt) as [t|]; [|by left].
    destruct (bool_decide (sv ∈ service_enum)) eqn:Hsv; [|by left].
    destruct (bool_decide (ar ≠ "")) eqn:Har; [|by left].
    apply bool_decide_eq_true in Hsv. apply bool_decide_eq_true in Har.
    right. right. eexists. simpl. by split_and!.
Qed.

Lemma put_restore_store id now st :
  let st' := (put_restore ObjectId_isValid id now st).1 in
  st' = st ∨
  ∃ outage, Outage_findById id st = Some outage ∧ status outage = ongoing ∧
            st' = Outage_save (restored_doc now outage) st.
Proof.
  unfold put_restore. destruct (negb _); [by left|].
  destruct (Outage_findById id st) as [outage|] eqn:Hfind; [|by left].
  case_bool_decide as Hst; [by left|]. right. exists outage.
  split_and!; [done| by destruct (status outage) | done].
Qed.

Lemma delete_outage_store secret id st :
  let st' := (delete_outage ObjectId_isValid secret ADMIN_PASSWORD id st).1 in
  st' = st ∨ st' = Outage_findByIdAndDelete id st.
Proof.
  unfold delete_outage. case_bool_decide; [by left|].
  destruct (negb _); [by left | by right].
Qed.

Lemma same_id_same_record st o1 o2 :
  unique_ids st → o1 ∈ st → o2 ∈ st → _id o1 = _id o2 → o1 = o2.
Proof.
  intros Hids H1 H2 Heq.
  pose proof (findById_unique o1 st Hids H1) as F1.
  pose proof (findById_unique o2 st Hids H2) as F2.
  rewrite Heq in F1. congruence.
Qed.

Lemma save_unique_ongoing doc e st :
  unique_ids st → unique_ongoing st → e ∈ st →
  _id doc = _id e → service doc = service e → area doc = area e →
  (status doc = ongoing → status e = ongoing) →
  unique_ongoing (Outage_save doc st).
Proof.
  intros Hids Huniq He Hid Hsv Har Hst o1 o2 H1 H2 S1 S2 Esv Ear.
  apply (elem_of_save _ _ _ Hids) in H1.
  apply (elem_of_save _ _ _ Hids) in H2.
  destruct H1 as [->|[H1 N1]], H2 as [->|[H2 N2]]; [done| | |by apply Huniq].
  - exfalso. apply N2. rewrite Hid. f_equal. symmetry.
    apply Huniq; try done; [by apply Hst|congruence|congruence].
  - exfalso. apply N1. rewrite Hid. f_equal. symmetry.
    apply Huniq; try done; [by apply Hst|congruence|congruence].
Qed.

Lemma sound_store_post req newId now st :
  sound_store st → newId ∉ _id <$> st →
  sound_store (post_outages Date_parse req newId now st).1.
Proof.
  intros (Hids & Huniq & Hrec) Hfresh.
  destruct (post_outages_store req newId now st)
    as [->|[(e & Hfind & ->)|(doc & -> & Hid & Hst & Hc & Hl & Hu & Hd & Hsv
                               & Har & Hnone)]]; [done| |].
  - destruct (findOne_Some _ _ _ _ Hfind) as (He & _ & _ & Hon).
    split_and!.
    + unfold unique_ids. by rewrite save_ids.
    + by apply (save_unique_ongoing _ e).
    + apply save_Forall; [|done].
      rewrite Forall_forall in Hrec. destruct (Hrec e He) as (? & ? & ? & ? & ?).
      unfold sound_record, confirmed_doc. simpl. split_and!; try done. lia.
  - split_and!.
    + unfold unique_ids. rewrite fmap_app. apply NoDup_app. split_and!.
      * done.
      * intros x Hx [->|Hnil%elem_of_nil]%elem_of_cons; [|done].
        apply Hfresh. by rewrite <- Hid.
      * apply NoDup_singleton.
    + intros o1 o2 H1 H2 S1 S2 Esv Ear.
      rewrite findOne_None in Hnone.
      apply elem_of_app in H1 as [H1|H1%list_elem_of_singleton];
        apply elem_of_app in H2 as [H2|H2%list_elem_of_singleton]; subst.
      * by apply Huniq.
      * exfalso. by apply (Hnone o1 H1).
      * exfalso. by apply (Hnone o2 H2).
      * done.
    + apply Forall_app. split; [done|]. apply Forall_singleton.
      unfold sound_record. rewrite Hc, Hl, Hst. by split_and!.
Qed.

Lemma sound_store_restore id now st :
  sound_store st → sound_store (put_restore ObjectId_isValid id now st).1.
Proof.
  intros (Hids & Huniq & Hrec).
  destruct (put_restore_store id now st) as [->|(o & Hfind & Hon & ->)];
    [done|].
  destruct (findById_Some _ _ _ Hfind) as [Ho _]. split_and!.
  - unfold unique_ids. by rewrite save_ids.
  - by apply (save_unique_ongoing _ o).
  - apply save_Forall; [|done].
    rewrite Forall_forall in Hrec. destruct (Hrec o Ho) as (? & ? & ? & ? & ?).
    unfold sound_record, restored_doc. simpl. split_and!; try done.
    by exists now.
Qed.

Lemma sound_store_delete secret id st :
  sound_store st →
  sound_store (delete_outage ObjectId_isValid secret ADMIN_PASSWORD id st).1.
Proof.
  intros (Hids & Huniq & Hrec).
  destruct (delete_outage_store secret id st) as [->| ->]; [done|].
  split_and!.
  - unfold unique_ids.
    exact (sublist_NoDup _ _ Hids (delete_ids_sublist id st)).
  - intros o1 o2 H1%elem_of_delete H2%elem_of_delete. by apply Huniq.
  - rewrite Forall_forall in Hrec. apply Forall_forall.
    intros o Ho%elem_of_delete. by apply Hrec.
Qed.

Lemma reachable_sound st :
  reachable Date_parse ObjectId_isValid ADMIN_PASSWORD st → sound_store st.
Proof.
  induction 1 as [|st r Hreach IH Hfresh].
  - split_and!; [apply NoDup_nil_2 | by intros ? ? ?%elem_of_nil | constructor].
  - destruct r as [req newId now|id now|secret id]; simpl in *.
    + by apply sound_store_post.
    + by apply sound_store_restore.
    + by apply sound_store_delete.
Qed.

End InvariantFacts.

Section ReachableStores.

Variable Date_parse : string → option Z.
Variable ObjectId_isValid : string → bool.
Variable ADMIN_PASSWORD : option string.

Implicit Types (st : Store) (o : Outage).


(** X2: every record of a reachable store has confirmCount at least 1, the
    confidenceLevel that [getConfidenceLevel] gives for its confirmCount, a
    service of the enum and a non-empty area. *)
Theorem reachable_records_consistent st o :
  reachable Date_parse ObjectId_isValid ADMIN_PASSWORD st → o ∈ st →
  confirmCount o >= 1 ∧
  confidenceLevel o = getConfidenceLevel (confirmCount o) ∧
  service o ∈ service_enum ∧ area o ≠ "".
Proof.
  intros Hreach Ho. destruct (reachable_sound _ _ _ _ Hreach) as (_ & _ & Hrec).
  rewrite Forall_forall in Hrec. destruct (Hrec o Ho) as (? & ? & ? & ? & _).
  by split_and!.
Qed.


End ReachableStores.

(** ** One request at a time: what can happen to a record *)

Section LifecycleFacts.

Variable Date_parse : string → option Z.
Variable ObjectId_isValid : string → bool.
Variable ADMIN_PASSWORD : option string.

Implicit Types (st : Store) (o outage : Outage) (id : string) (r : Request).

Lemma handle_record r st id o :
  unique_ids st → Outage_findById id st = Some o →
  let st' := (handle Date_parse ObjectId_isValid ADMIN_PASSWORD r st).1 in
  Outage_findById id st' = Some o ∨
  (status o = ongoing ∧ (∃ req newId now, r = POST_outages req newId now) ∧
   Outage_findById id st' = Some (confirmed_doc o)) ∨
  (status o = ongoing ∧
   ∃ now, r = PUT_restore id now ∧
          Outage_findById id st' = Some (restored_doc now o)) ∨
  (r = DELETE_outage ADMIN_PASSWORD id ∧ Outage_findById id st' = None).
Proof.
  intros Hids Hfind. destruct (findById_Some _ _ _ Hfind) as [Ho Hid].
  destruct r as [req newId now|id0 now|secret id0]; simpl.
  - destruct (post_outages_store Date_parse req newId now st)
      as [->|[(e & Hone & ->)|(doc & -> & _)]].
    + by left.
    + destruct (findOne_Some _ _ _ _ Hone) as (He & _ & _ & Hon).
      destruct (decide (id = _id e)) as [Heq|Hne].
      * assert (o = e) as -> by (apply (same_id_same_record st); congruence).
        right. left. split_and!; [done|by eauto|]. subst id.
        change (_id e) with (_id (confirmed_doc e)).
        by apply findById_save, (findById_exists e).
      * left. by rewrite findById_save_other.
    + left. by apply findById_app_l.
  - destruct (put_restore_store ObjectId_isValid id0 now st)
      as [->|(e & Hfind0 & Hon & ->)]; [by left|].
    destruct (decide (id = id0)) as [->|Hne].
    + assert (o = e) as -> by congruence.
      right. right. left. split; [done|]. exists now. split; [done|].
      by apply findById_restored.
    + left. rewrite findById_save_other; [done|].
      destruct (findById_Some _ _ _ Hfind0) as [_ <-]. done.
  - unfold delete_outage. case_bool_decide as Hsec; [by left|].
    destruct (negb _); [by left|]. simpl.
    destruct (decide (id = id0)) as [->|Hne].
    + right. right. right. split; [|by apply findById_delete].
      f_equal. by destruct (decide (secret = ADMIN_PASSWORD)).
    + left. by rewrite findById_delete_other.
Qed.

(** X4: one request never changes the id, service, area, downTime or
    createdAt of a stored record, and moves its confirmCount up by 0 or 1
    (ids being distinct). *)
Theorem request_keeps_identity r st id o o' :
  unique_ids st →
  Outage_findById id st = Some o →
  Outage_findById id
    (handle Date_parse ObjectId_isValid ADMIN_PASSWORD r st).1 = Some o' →
  _id o' = _id o ∧ service o' = service o ∧ area o' = area o ∧
  downTime o' = downTime o ∧ createdAt o' = createdAt o ∧
  (confirmCount o' = confirmCount o ∨ confirmCount o' = confirmCount o + 1).
Proof.
  intros Hids Hfind Hafter.
  destruct (handle_record r st id o Hids Hfind)
    as [H|[(_ & _ & H)|[(_ & now & _ & H)|(_ & H)]]];
    rewrite H in Hafter; simplify_eq; simpl; split_and!; auto.
Qed.


(** X6: the status of a stored record only moves from ongoing to resolved,
    and only through a restore of its id, which sets upTime to the time of
    the request. *)
Theorem status_changes_only_by_restore r st id o o' :
  unique_ids st →
  Outage_findById id st = Some o →
  Outage_findById id
    (handle Date_parse ObjectId_isValid ADMIN_PASSWORD r st).1 = Some o' →
  status o' ≠ status o →
  status o = ongoing ∧ status o' = resolved ∧
  ∃ now, r = PUT_restore id now ∧ upTime o' = Some now.
Proof.
  intros Hids Hfind Hafter Hne.
  destruct (handle_record r st id o Hids Hfind)
    as [H|[(_ & _ & H)|[(Hon & now & -> & H)|(_ & H)]]];
    rewrite H in Hafter; simplify_eq; simpl in *; try done.
  split_and!; [done|done|]. by exists now.
Qed.

End LifecycleFacts.

(** ** More on reporting *)

Section ReportEdgeFacts.

Variable Date_parse : string → option Z.
Variable ObjectId_isValid : string → bool.

Implicit Types (st : Store) (o existing : Outage) (req : ReportBody).

Lemma post_outages_create req sv ar dt t newId now st :
  present_report req sv ar dt →
  sv ∈ service_enum → Date_parse dt = Some t →
  Outage_findOne sv ar st = None →
  ∃ doc,
    post_outages Date_parse req newId now st =
      (st ++ [doc], status_json 201 (OutageDoc doc)) ∧
    _id doc = newId ∧ service doc = sv ∧ area doc = ar ∧ downTime doc = t ∧
    confirmCount doc = 1 ∧ confidenceLevel doc = unverified ∧
    status doc = ongoing.
Proof.
  intros (Hs & Ha & Hd & Hsv & Har & Hdt) Henum Hparse Hnone. eexists. split.
  - unfold post_outages. rewrite Hs, Ha, Hd, !truthy_Some by done. simpl.
    rewrite Hnone, Hparse. unfold Outage_create.
    rewrite (bool_decide_eq_true_2 _ Henum), (bool_decide_eq_true_2 _ Har).
    simpl. reflexivity.
  - by split_and!.
Qed.

(** X7: [getConfidenceLevel] is monotone: a larger count never gives a lower
    level. *)
Theorem getConfidenceLevel_monotone (c1 c2 : Z) :
  (c1 ≤ c2)%Z →
  (confidence_rank (getConfidenceLevel c1)
     ≤ confidence_rank (getConfidenceLevel c2))%Z.
Proof.
  intros Hle. unfold getConfidenceLevel.
  repeat case_bool_decide; simpl; lia.
Qed.


(** X9: a report with its fields present that matches no ongoing outage is
    answered 500 "Server error" exactly when its service is outside the enum
    or its downTime is not a date; nothing is written then. *)
Theorem report_schema_rejection_iff req sv ar dt newId now st :
  present_report req sv ar dt →
  Outage_findOne sv ar st = None →
  (post_outages Date_parse req newId now st = (st, server_error)
   ↔ sv ∉ service_enum ∨ Date_parse dt = None) ∧
  ((post_outages Date_parse req newId now st).2 = server_error →
   (post_outages Date_parse req newId now st).1 = st).
Proof.
  intros (Hs & Ha & Hd & Hsv & Har & Hdt) Hnone. unfold post_outages.
  rewrite Hs, Ha, Hd, !truthy_Some by done. simpl. rewrite Hnone.
  unfold Outage_create. rewrite (bool_decide_eq_true_2 _ Har), andb_true_r.
  destruct (Date_parse dt) as [t|]; [|split; [split; auto|done]].
  case_bool_decide as Henum; simpl.
  - split; [|done]. split; [done|]. by intros [?|?].
  - split; [split; auto|done].
Qed.

(** X10: after any number of further reports for a pair that has an ongoing
    record, that record is still the one found for the pair, its confirmCount
    has grown by the number of reports, its confidenceLevel is the one of its
    count, and no record was added. *)
Theorem reports_accumulate reports sv ar st existing :
  unique_ids st →
  Outage_findOne sv ar st = Some existing →
  Forall (λ rep : ReportBody * string * Z,
            ∃ dt, present_report rep.1.1 sv ar dt) reports →
  ∃ merged,
    Outage_findOne sv ar (after_reports Date_parse reports st) = Some merged ∧
    _id merged = _id existing ∧
    confirmCount merged = confirmCount existing + Z.of_nat (length reports) ∧
    (reports ≠ [] →
     confidenceLevel merged = getConfidenceLevel (confirmCount merged)) ∧
    length (after_reports Date_parse reports st) = length st.
Proof.
  intros Hids Hfind Hall. revert st existing Hids Hfind.
  induction Hall as [|[[req newId] now] reports [dt Hreq] Hall IH];
    intros st existing Hids Hfind.
  - exists existing. simpl. split_and!; try done. lia.
  - unfold after_reports. cbn [fold_left].
    simpl in Hreq.
    rewrite (post_outages_confirm _ _ _ _ _ newId now _ _ Hreq Hfind).
    cbn [fst].
    destruct (IH (Outage_save (confirmed_doc existing) st)
                (confirmed_doc existing))
      as (merged & Hm & Hid & Hcount & Hlevel & Hlen).
    { unfold unique_ids. by rewrite save_ids. }
    { by apply findOne_save_confirmed. }
    exists merged. unfold after_reports in *. split_and!; try done.
    + rewrite Hcount. simpl confirmCount. rewrite length_cons. lia.
    + intros _. destruct reports as [|rep reports]; [|by apply Hlevel].
      simpl in Hm. rewrite findOne_save_confirmed in Hm by done.
      by simplify_eq.
    + by rewrite Hlen, save_length.
Qed.

(** X11: once an ongoing outage has been restored, the next valid report for
    its service and area opens a new record with confirmCount 1 (ids being
    distinct and the pair having that single ongoing record). *)
Theorem report_after_restore_creates id now st outage req dt t newId now2 :
  unique_ids st → unique_ongoing st →
  ObjectId_isValid id = true →
  Outage_findById id st = Some outage → status outage = ongoing →
  present_report req (service outage) (area outage) dt →
  service outage ∈ service_enum → Date_parse dt = Some t →
  ∃ doc,
    post_outages Date_parse req newId now2
      (put_restore ObjectId_isValid id now st).1 =
      ((put_restore ObjectId_isValid id now st).1 ++ [doc],
       status_json 201 (OutageDoc doc)) ∧
    _id doc = newId ∧ confirmCount doc = 1 ∧
    confidenceLevel doc = unverified ∧ status doc = ongoing.
Proof.
  intros Hids Huniq Hvalid Hfind Hon Hreq Henum Hparse.
  rewrite (put_restore_ongoing _ _ now _ _ Hvalid Hfind Hon). cbn [fst].
  destruct (findById_Some _ _ _ Hfind) as [Ho Hid].
  destruct (post_outages_create req _ _ dt t newId now2
              (Outage_save (restored_doc now outage) st) Hreq Henum Hparse)
    as (doc & Hpost & Hnew & _ & _ & _ & Hc & Hl & Hs).
  - apply findOne_None. intros o Hin (Hsv & Har & Hst).
    apply (elem_of_save _ _ _ Hids) in Hin as [->|[Hin Hne]]; [done|].
    apply Hne. simpl. f_equal. by apply Huniq.
  - exists doc. by split_and!.
Qed.

End ReportEdgeFacts.

(** ** More on restoring and deleting *)

Section RestoreDeleteEdgeFacts.

Variable ObjectId_isValid : string → bool.

Implicit Types (st : Store) (outage restored : Outage) (id : string).

(** X12: a successful restore changes upTime, durationMinutes and status
    only: the id, service, area, downTime, confirmCount, confidenceLevel and
    createdAt of the record stay, the collection keeps its size and ids, and
    the records under other ids are untouched. *)
Theorem restore_frame id now st st' restored :
  put_restore ObjectId_isValid id now st = (st', json (OutageDoc restored)) →
  ∃ outage,
    Outage_findById id st = Some outage ∧
    _id restored = _id outage ∧ service restored = service outage ∧
    area restored = area outage ∧ downTime restored = downTime outage ∧
    confirmCount restored = confirmCount outage ∧
    confidenceLevel restored = confidenceLevel outage ∧
    createdAt restored = createdAt outage ∧
    length st' = length st ∧ _id <$> st' = _id <$> st ∧
    ∀ id', id' ≠ id → Outage_findById id' st' = Outage_findById id' st.
Proof.
  intros Hr.
  destruct (put_restore_success _ _ _ _ _ _ Hr)
    as (outage & _ & Hfind & _ & -> & ->).
  exists outage. split_and!; try done.
  - apply save_length.
  - apply save_ids.
  - intros id' Hne. apply findById_save_other.
    destruct (findById_Some _ _ _ Hfind) as [_ <-]. done.
Qed.


(** X14: the duration stored by a restore is negative exactly when the
    reported downTime lies after the time of the restore; the handler does
    not reject such a record. *)
Theorem restore_duration_sign id now st outage :
  ObjectId_isValid id = true →
  Outage_findById id st = Some outage → status outage = ongoing →
  ∃ restored st' mins,
    put_restore ObjectId_isValid id now st = (st', json (OutageDoc restored)) ∧
    durationMinutes restored = Some mins ∧
    ((mins < 0)%Q ↔ (now < downTime outage)%Z) ∧
    ((mins == 0)%Q ↔ now = downTime outage).
Proof.
  intros Hvalid Hfind Hon. eexists _, _, _. split_and!.
  - by apply put_restore_ongoing.
  - done.
  - unfold Qlt, Qdiv. simpl. lia.
  - unfold Qeq, Qdiv. simpl. lia.
Qed.


(** X16: a delete is answered 400 "Invalid ID" exactly when the secret is
    right and the id malformed, and it changes the store only when it is
    answered "Deleted". *)
Theorem delete_outcomes supplied configured id st :
  ((delete_outage ObjectId_isValid supplied configured id st).2 =
     status_json 400 (Message "Invalid ID")
   ↔ supplied = configured ∧ ObjectId_isValid id = false) ∧
  ((delete_outage ObjectId_isValid supplied configured id st).2 ≠
     json (Message "Deleted") →
   (delete_outage ObjectId_isValid supplied configured id st).1 = st).
Proof.
  unfold delete_outage, isValidObjectId. case_bool_decide as Hsec; simpl.
  - split; [|done]. split; [done|]. by intros [? _].
  - assert (supplied = configured)
      by (destruct (decide (supplied = configured)); done).
    destruct (ObjectId_isValid id); simpl.
    + split; [|done]. split; [done|]. by intros [_ ?].
    + by split.
Qed.

End RestoreDeleteEdgeFacts.

(** ** More on the analytics *)

Section StatsEdgeFacts.

Implicit Types (st : Store) (o : Outage) (sv : string) (m : gmap string Q).







End StatsEdgeFacts.

Section InsightsEdgeFacts.

Variable tzOffset : Z → Z.

Implicit Types (st : Store) (o : Outage).

Lemma getDay_range d : (getDay tzOffset d < 7)%N.
Proof.
  unfold getDay.
  pose proof (Z.mod_pos_bound (((d + tzOffset d) `div` 86400000) + 4) 7). lia.
Qed.

Lemma get_insights_doc st :
  st ≠ [] →
  ∃ peak day,
    maxKey (fold_left (λ m o, count_up (getHours tzOffset (downTime o)) m)
              st ∅) = Some peak ∧
    maxKey (fold_left (λ m o, count_up (getDay tzOffset (downTime o)) m)
              st ∅) = Some day ∧
    get_insights tzOffset st =
      json (InsightsDoc
              {| peakOutageHour := peak; worstDayOfWeek := day;
                 recurringAreas :=
                   fold_left (λ m o, count_up (area o) m) st ∅ |}).
Proof.
  intros Hne. unfold get_insights.
  rewrite bool_decide_eq_false_2 by (by destruct st).
  rewrite insights_fold.
  destruct (maxKey_tally (λ o, getHours tzOffset (downTime o)) st Hne)
    as (peak & Hpeak & _).
  destruct (maxKey_tally (λ o, getDay tzOffset (downTime o)) st Hne)
    as (day & Hday & _).
  exists peak, day. by rewrite Hpeak, Hday.
Qed.

(** X19: for a non-empty store worstDayOfWeek is a day of the week (below 7,
    0 being Sunday) of some stored outage, no day occurs more often, and
    among the days that occur as often it is the largest one. *)
Theorem worst_day_is_last_maximal st :
  st ≠ [] →
  ∃ ins, get_insights tzOffset st = json (InsightsDoc ins) ∧
    let day := λ o, getDay tzOffset (downTime o) in
    let worst := worstDayOfWeek ins in
    (worst < 7)%N ∧
    (∃ o, o ∈ st ∧ day o = worst) ∧
    (∀ d, tally day d st ≤ tally day worst st)%Z ∧
    (∀ d, tally day d st = tally day worst st → (d ≤ worst)%N).
Proof.
  intros Hne.
  destruct (get_insights_doc st Hne) as (peak & worst & _ & Hworst & ->).
  destruct (maxKey_tally (λ o, getDay tzOffset (downTime o)) st Hne)
    as (worst' & Hworst' & (o & Ho & Hday) & Hmax & Htie).
  assert (worst' = worst) as Heq by congruence. rewrite Heq in *.
  eexists. split; [reflexivity|]. cbn [worstDayOfWeek].
  split_and!; try done.
  - rewrite <- Hday. apply getDay_range.
  - by exists o.
Qed.


(** X21: the insights are the empty object exactly for the empty store, and
    the handler never ends in the error branch: [reduce] is never run on an
    empty list of keys. *)
Theorem insights_never_fail st :
  (get_insights tzOffset st = json EmptyObject ↔ st = []) ∧
  get_insights tzOffset st ≠ server_error.
Proof.
  destruct st as [|o st].
  - by split.
  - destruct (get_insights_doc (o :: st)) as (peak & day & _ & _ & ->);
      [done|]. split; [|done]. by split.
Qed.

End InsightsEdgeFacts.

(** ** Listing *)

Section ListFacts.

Implicit Types (st : Store) (o : Outage).

#[local] Instance newest_first_total : Total newest_first.
Proof. intros a b. unfold newest_first. lia. Qed.

#[local] Instance newest_first_trans : Transitive newest_first.
Proof. intros a b c. unfold newest_first. lia. Qed.

(** X22: the listing answers 200 with exactly the stored records (each as
    often as it is stored), ordered by createdAt from newest to oldest,
    whatever the insertion order. *)
Theorem list_is_newest_first st :
  (get_outages st).1 = 200 ∧
  (get_outages st).2 ≡ₚ st ∧
  ∀ i j o1 o2, (i < j)%nat →
    (get_outages st).2 !! i = Some o1 → (get_outages st).2 !! j = Some o2 →
    (createdAt o2 ≤ createdAt o1)%Z.
Proof.
  unfold get_outages. cbn [fst snd]. split_and!; [done| |].
  - apply merge_sort_Permutation.
  - pose proof (StronglySorted_merge_sort newest_first st) as Hs.
    revert Hs. generalize (merge_sort newest_first st). intros l Hs.
    induction Hs as [|x l Hs IH Hall]; intros i j o1 o2 Hij H1 H2; [done|].
    destruct j as [|j]; [lia|]. destruct i as [|i]; simpl in *.
    + simplify_eq. rewrite Forall_forall in Hall.
      apply (Hall o2). by eapply list_elem_of_lookup_2.
    + apply (IH i j); [lia|done|done].
Qed.

End ListFacts.

(** ** Impact metrics *)

Section NamedObjectFacts.

Implicit Types (obj : list (string * Q)) (k : string) (v : Q).








End NamedObjectFacts.

Section KeyHoursFacts.

Variable key : Outage → string.

Implicit Types (obj : list (string * Q)) (k : string) (l : list Outage).





End KeyHoursFacts.

Section ImpactFacts.

Implicit Types (st : Store) (o : Outage).






End ImpactFacts.

(** ** Start-up *)

Section ConnectFacts.

Variable connect : nat → bool.

(** X25: [connectDB] calls [mongoose.connect] until the first success and
    at most [retries + 1] times: it either connects at call number [n] (with
    [n] at most [retries]) after logging [n] retries, or gives up after
    [retries + 1] failed calls having logged [retries] retries. *)
Theorem connectDB_retries attempt retries :
  ∃ n, (n ≤ retries)%nat ∧
    (∀ i, (i < n)%nat → connect (attempt + i)%nat = false) ∧
    ((connect (attempt + n)%nat = true ∧
      connectDB connect attempt retries =
        (replicate n "MongoDB retrying..." ++ ["MongoDB connected"], true)) ∨
     (n = retries ∧ connect (attempt + n)%nat = false ∧
      connectDB connect attempt retries =
        (replicate retries "MongoDB retrying...", false))).
Proof.
  revert attempt. induction retries as [|retries IH]; intros attempt.
  - exists 0%nat. rewrite Nat.add_0_r. simpl.
    split_and!; [done | intros i; lia |].
    destruct (connect attempt); [by left | by right].
  - simpl. destruct (connect attempt) eqn:Hc.
    + exists 0%nat. rewrite Nat.add_0_r.
      split_and!; [lia | intros i; lia | by left].
    + destruct (IH (S attempt)) as (n & Hn & Hfail & Hend).
      exists (S n).
      replace (attempt + S n)%nat with (S attempt + n)%nat by lia.
      split_and!; [lia | |].
      * intros [|i] Hi; [by rewrite Nat.add_0_r|].
        replace (attempt + S i)%nat with (S attempt + i)%nat by lia.
        apply Hfail. lia.
      * destruct Hend as [(Hok & ->)|(-> & Hko & ->)]; [by left | by right].
Qed.

End ConnectFacts.

(** ** The further properties at concrete inputs *)

Section MoreConcreteRuns.

Import Fixtures.

Lemma reachable_after_first_report :
  reachable parse_epoch hex24 None after_first_report.
Proof.
  apply (reachable_step parse_epoch hex24 None [] first_report).
  - apply reachable_empty.
  - apply not_elem_of_nil.
Defined.

Lemma unique_ids_two_ongoing : unique_ids two_ongoing.
Proof. apply (bool_decide_unpack _). by vm_compute. Defined.


Lemma unique_ongoing_two_ongoing : unique_ongoing two_ongoing.
Proof.
  intros o1 o2 H1 H2 _ _ Hsv _.
  apply elem_of_cons in H1 as [->|H1%list_elem_of_singleton];
    apply elem_of_cons in H2 as [->|H2%list_elem_of_singleton];
    subst; done.
Defined.


Lemma first_record_stored :
  mkOutage id_a "Water" "North" 7 None None ongoing 1 unverified 9
    ∈ after_first_report.
Proof.
  change after_first_report
    with [mkOutage id_a "Water" "North" 7 None None ongoing 1 unverified 9].
  by left.
Defined.

Lemma reachable_records_consistent_witness :
  confirmCount (mkOutage id_a "Water" "North" 7 None None ongoing 1 unverified 9)
    >= 1 ∧
  confidenceLevel
    (mkOutage id_a "Water" "North" 7 None None ongoing 1 unverified 9) =
    getConfidenceLevel 1.
Proof.
  destruct (reachable_records_consistent parse_epoch hex24 None
              after_first_report _ reachable_after_first_report
              first_record_stored) as (H1 & H2 & _).
  by split.
Defined.


Lemma request_keeps_identity_witness :
  downTime (confirmed_doc water_north) = downTime water_north ∧
  (confirmCount (confirmed_doc water_north) = confirmCount water_north ∨
   confirmCount (confirmed_doc water_north) = confirmCount water_north + 1).
Proof.
  destruct (request_keeps_identity parse_epoch hex24 None second_report
              two_ongoing id_a water_north (confirmed_doc water_north))
    as (_ & _ & _ & H1 & _ & H2).
  - exact unique_ids_two_ongoing.
  - reflexivity.
  - reflexivity.
  - by split.
Defined.


Lemma status_changes_only_by_restore_witness :
  status water_north = ongoing ∧ status water_resolved = resolved.
Proof.
  destruct (status_changes_only_by_restore parse_epoch hex24 None
              (PUT_restore id_a (5 * 3600000 + 90000))
              two_ongoing id_a water_north water_resolved)
    as (H1 & H2 & _).
  - exact unique_ids_two_ongoing.
  - reflexivity.
  - reflexivity.
  - discriminate.
  - by split.
Defined.

Lemma getConfidenceLevel_monotone_witness :
  (confidence_rank (getConfidenceLevel 1)
     ≤ confidence_rank (getConfidenceLevel 3))%Z.
Proof. apply (getConfidenceLevel_monotone 1 3). lia. Defined.


Lemma report_schema_rejection_iff_witness :
  post_outages parse_epoch (report "Gas" "North" "yesterday") id_c 9
    two_ongoing = (two_ongoing, server_error).
Proof.
  apply (report_schema_rejection_iff parse_epoch
           (report "Gas" "North" "yesterday") "Gas" "North" "yesterday"
           id_c 9 two_ongoing).
  - by repeat split.
  - reflexivity.
  - right. reflexivity.
Defined.

Lemma reports_accumulate_witness :
  ∃ merged,
    Outage_findOne "Water" "North"
      (after_reports parse_epoch two_more_reports after_first_report)
      = Some merged ∧
    confirmCount merged = 3 ∧ confidenceLevel merged = confirmed.
Proof.
  destruct (reports_accumulate parse_epoch two_more_reports "Water" "North"
              after_first_report
              (mkOutage id_a "Water" "North" 7 None None ongoing 1
                 unverified 9))
    as (merged & H1 & _ & H2 & H3 & _).
  - apply (bool_decide_unpack _). by vm_compute.
  - reflexivity.
  - apply Forall_cons. split; [exists "yesterday"; by repeat split|].
    apply Forall_cons. split; [exists "today"; by repeat split|].
    apply Forall_nil_2.
  - exists merged. split_and!; [done|done|].
    rewrite H3 by done. by rewrite H2.
Defined.

Lemma report_after_restore_creates_witness :
  ∃ doc,
    post_outages parse_epoch
      (report "Water" "North" "1970-01-01T00:00:07.000Z") id_c 11
      (put_restore hex24 id_a (5 * 3600000 + 90000) two_ongoing).1 =
      ((put_restore hex24 id_a (5 * 3600000 + 90000) two_ongoing).1 ++ [doc],
       status_json 201 (OutageDoc doc)) ∧
    confirmCount doc = 1.
Proof.
  destruct (report_after_restore_creates parse_epoch hex24 id_a
              (5 * 3600000 + 90000) two_ongoing water_north
              (report "Water" "North" "1970-01-01T00:00:07.000Z")
              "1970-01-01T00:00:07.000Z" 7 id_c 11)
    as (doc & H1 & _ & H2 & _).
  - exact unique_ids_two_ongoing.
  - exact unique_ongoing_two_ongoing.
  - reflexivity.
  - reflexivity.
  - reflexivity.
  - by repeat split.
  - unfold service_enum. simpl. right. left.
  - reflexivity.
  - by exists doc.
Defined.

Lemma restore_frame_witness :
  ∃ outage,
    Outage_findById id_a two_ongoing = Some outage ∧
    confirmCount water_resolved = confirmCount outage ∧
    length one_resolved = length two_ongoing.
Proof.
  destruct (restore_frame hex24 id_a (5 * 3600000 + 90000) two_ongoing
              one_resolved water_resolved)
    as (outage & H1 & _ & _ & _ & _ & H2 & _ & _ & H3 & _).
  - reflexivity.
  - by exists outage.
Defined.


Lemma restore_duration_sign_witness :
  ∃ restored st' mins,
    put_restore hex24 id_a 0 two_ongoing = (st', json (OutageDoc restored)) ∧
    durationMinutes restored = Some mins ∧ (mins < 0)%Q.
Proof.
  destruct (restore_duration_sign hex24 id_a 0 two_ongoing water_north)
    as (r & s & m & H1 & H2 & H3 & _).
  - reflexivity.
  - reflexivity.
  - reflexivity.
  - exists r, s, m. split_and!; [done|done|]. apply H3. reflexivity.
Defined.


Lemma delete_outcomes_witness :
  (delete_outage hex24 (Some "s3cret") (Some "s3cret") "not-an-id"
     two_ongoing).2 = status_json 400 (Message "Invalid ID") ∧
  (delete_outage hex24 (Some "guess") (Some "s3cret") id_a two_ongoing).1
    = two_ongoing.
Proof.
  split.
  - apply (delete_outcomes hex24 (Some "s3cret") (Some "s3cret") "not-an-id"
             two_ongoing). by split.
  - apply (delete_outcomes hex24 (Some "guess") (Some "s3cret") id_a
             two_ongoing). discriminate.
Defined.




Lemma worst_day_is_last_maximal_witness :
  ∃ ins, get_insights utc two_ongoing = json (InsightsDoc ins) ∧
         (worstDayOfWeek ins < 7)%N.
Proof.
  destruct (worst_day_is_last_maximal utc two_ongoing) as (i & H1 & H2 & _).
  - discriminate.
  - by exists i.
Defined.



Lemma insights_never_fail_witness : get_insights utc [] = json EmptyObject.
Proof. by apply (insights_never_fail utc []). Defined.

Lemma list_is_newest_first_witness :
  (createdAt power_south ≤ createdAt water_north)%Z.
Proof.
  destruct (list_is_newest_first (reverse two_ongoing)) as (_ & _ & H).
  apply (H 0%nat 1%nat); [lia|reflexivity|reflexivity].
Defined.




Lemma connectDB_retries_witness :
  connectDB (λ n, bool_decide (n = 3%nat)) 0 5 =
    (replicate 3 "MongoDB retrying..." ++ ["MongoDB connected"], true) ∧
  connectDB (λ _, false) 0 5 = (replicate 5 "MongoDB retrying...", false).
Proof.
  split.
  - destruct (connectDB_retries (λ n, bool_decide (n = 3%nat)) 0 5)
      as (n & Hn & Hfail & [(Hok & ->)|(-> & Hko & _)]).
    + simpl in Hok. apply bool_decide_eq_true in Hok. by subst n.
    + done.
  - destruct (connectDB_retries (λ _, false) 0 5)
      as (n & Hn & Hfail & [(Hok & _)|(_ & _ & ->)]); done.
Defined.

End MoreConcreteRuns.
